(** * Eskdale mini golf: the procedural builders, embedded and verified

    The scripts under [scripts/] drive a 3-D host application through its
    Python API.  This development embeds the parts of them that carry
    logic of their own:

    - [hole_builder_utils.py]: Catmull-Rom chains, the ribbon mesh builder,
      and the get-or-create helpers for materials, collections and objects;
    - [fix_terrain_cut.py]: the sloped elliptical terrain cut;
    - [build_hole_5.py], [build_eskdale_theme.py]: the strict lookups and
      the scripted rotation drivers;
    - [blender_ws.py]: the reply handling of the command relay.

    Conventions.  A Python [float] is a real number ([R]); the rounding of
    the machine format is not part of the model.  A Python exception is a
    [None] (or an explicit error value) of the embedded function.  The
    host's data blocks ([bpy.data.objects] and friends) are finite maps
    keyed by name. *)

From Stdlib Require Import Reals Lra Lia ZArith Psatz Machin.
From stdpp Require Import base option list gmap strings fin_maps pretty.

#[local] Set Warnings "-clear-no-such-hyp".

(** ** Scalars *)

Module Num.
Local Open Scope R_scope.

(** Python's [a / b] on floats: [ZeroDivisionError] when [b] is zero. *)
Definition fdiv (a b : R) : option R :=
  if Req_dec_T b 0 then None else Some (a / b).

(** [max(0.0, min(1.0, t))] *)
Definition clamp01 (t : R) : R := Rmax 0.0 (Rmin 1.0 t).

End Num.

(** ** hole_builder_utils.py: math helpers and curves *)

Module Curve.
Local Open Scope R_scope.

(** [mathutils.Vector] with three components; [v[0]], [v[1]], [v[2]]. *)
Record Vector := mkVector { vx : R; vy : R; vz : R }.

Definition lerp (a b t : R) : R := a + (b - a) * t.

Definition lerp_vec (a b : Vector) (t : R) : Vector :=
  mkVector (lerp (vx a) (vx b) t) (lerp (vy a) (vy b) t) (lerp (vz a) (vz b) t).

(** [catmull_rom(p0, p1, p2, p3, t)]; the [alpha] argument is unused. *)
Definition catmull_rom (p0 p1 p2 p3 t : R) : R :=
  let t2 := t * t in
  let t3 := t2 * t in
  0.5 * ((2.0 * p1) +
         (- p0 + p2) * t +
         (2.0 * p0 - 5.0 * p1 + 4.0 * p2 - p3) * t2 +
         (- p0 + 3.0 * p1 - 3.0 * p2 + p3) * t3).

(** The body of the inner loop: one sample of span [i] at parameter [t].
    List indexing raises [IndexError] out of range: [None]. *)
Definition span_point (pts : list Vector) (i : nat) (t : R) : option Vector :=
  p0 ← pts !! (i - 1)%nat;
  p1 ← pts !! i;
  p2 ← pts !! (i + 1)%nat;
  p3 ← pts !! (i + 2)%nat;
  Some (mkVector (catmull_rom (vx p0) (vx p1) (vx p2) (vx p3) t)
                 (catmull_rom (vy p0) (vy p1) (vy p2) (vy p3) t)
                 (catmull_rom (vz p0) (vz p1) (vz p2) (vz p3) t)).

(** [for s in range(segments_per_span)]: the samples of span [i].  The
    division [s / segments_per_span] runs only when the range is not empty,
    so its divisor is positive. *)
Definition span_samples (pts : list Vector) (segments_per_span : Z) (i : nat)
  : option (list Vector) :=
  mapM (λ s : nat, span_point pts i (INR s / IZR segments_per_span))
       (seq 0 (Z.to_nat segments_per_span)).

(** [catmull_rom_chain(points, segments_per_span=12)] *)
Definition catmull_rom_chain (points : list Vector) (segments_per_span : Z)
  : option (list Vector) :=
  if decide (length points < 2)%nat then Some points
  else
    first ← head points;
    final ← last points;
    let pts := [first] ++ points ++ [final] in
    spans ← mapM (span_samples pts segments_per_span)
                 (seq 1 (length pts - 3));
    anchor ← pts !! (length pts - 2)%nat;
    Some (concat spans ++ [anchor]).


End Curve.

(** ** hole_builder_utils.py: the ribbon mesh builder *)

Module Ribbon.
Import Num Curve.
Local Open Scope R_scope.

(** *** [mathutils.Vector] arithmetic *)

Definition vadd (a b : Vector) : Vector :=
  mkVector (vx a + vx b) (vy a + vy b) (vz a + vz b).
Definition vsub (a b : Vector) : Vector :=
  mkVector (vx a - vx b) (vy a - vy b) (vz a - vz b).
Definition vscale (a : Vector) (k : R) : Vector :=
  mkVector (vx a * k) (vy a * k) (vz a * k).
Definition vlength (a : Vector) : R :=
  sqrt (vx a * vx a + vy a * vy a + vz a * vz a).

(** [v.normalized()]: the host returns the zero vector for a vector of
    length zero. *)
Definition normalized (a : Vector) : Vector :=
  if Req_dec_T (vlength a) 0 then mkVector 0 0 0
  else mkVector (vx a / vlength a) (vy a / vlength a) (vz a / vlength a).

(** [v.z = z] *)
Definition set_z (a : Vector) (z : R) : Vector := mkVector (vx a) (vy a) z.

(** *** The working mesh ([bmesh])

    A vertex is its index in [bm_verts]; every [bm.verts.new] makes a new
    vertex, also at coordinates that are already taken.  A face is the
    list of its vertices. *)
Record BMesh := mkBMesh {
  bm_verts : list Vector;
  bm_faces : list (list nat)
}.

Definition bmesh_new : BMesh := mkBMesh [] [].

(** [bm.verts.new(co)] *)
Definition verts_new (bm : BMesh) (co : Vector) : BMesh * nat :=
  (mkBMesh (bm_verts bm ++ [co]) (bm_faces bm), length (bm_verts bm)).

(** A face on the same set of vertices is already there. *)
Definition face_exists (bm : BMesh) (vs : list nat) : Prop :=
  Exists (fun f => list_to_set f =@{gset nat} list_to_set vs) (bm_faces bm).

(** [bm.faces.new(vs)]; [None] is the [ValueError] the host raises for
    fewer than three vertices, a vertex used twice, or a face that exists. *)
Definition faces_new (bm : BMesh) (vs : list nat) : option BMesh :=
  if decide (length vs < 3)%nat then None
  else if decide (NoDup vs) then
    if decide (face_exists bm vs) then None
    else Some (mkBMesh (bm_verts bm) (bm_faces bm ++ [vs]))
  else None.

(** The mesh datablock [obj.data] as [bm.to_mesh] leaves it. *)
Record MeshData := mkMeshData {
  vertices : list Vector;
  polygons : list (list nat);
  uv_layer : option (list (list (R * R)))
}.

(** *** [build_path_mesh] *)

(** The tangent at sample [i]; [None] is an [IndexError]. *)
Definition tangent_at (centerline : list Vector) (i : nat) : option Vector :=
  if decide (i = 0)%nat then
    a ← centerline !! 1%nat;
    b ← centerline !! 0%nat;
    Some (normalized (vsub a b))
  else if decide (i = length centerline - 1)%nat then
    a ← centerline !! (length centerline - 1)%nat;
    b ← centerline !! (length centerline - 2)%nat;
    Some (normalized (vsub a b))
  else
    a ← centerline !! (i + 1)%nat;
    b ← centerline !! (i - 1)%nat;
    Some (normalized (vsub a b)).

(** The state of the first loop. *)
Record Strip := mkStrip {
  bm : BMesh;
  verts_left : list nat;
  verts_right : list nat
}.

(** The body of [for i, pt in enumerate(centerline)]. *)
Definition place_pair (centerline : list Vector) (half_w : R)
    (st : Strip) (i : nat) (pt : Vector) : option Strip :=
  tangent ← tangent_at centerline i;
  let perp := normalized (mkVector (- vy tangent) (vx tangent) 0) in
  let left := set_z (vadd pt (vscale perp half_w)) (vz pt) in
  let right := set_z (vsub pt (vscale perp half_w)) (vz pt) in
  let '(bm1, vl) := verts_new (bm st) left in
  let '(bm2, vr) := verts_new bm1 right in
  Some (mkStrip bm2 (verts_left st ++ [vl]) (verts_right st ++ [vr])).

Fixpoint place_pairs (centerline : list Vector) (half_w : R)
    (items : list (nat * Vector)) (st : Strip) : option Strip :=
  match items with
  | [] => Some st
  | (i, pt) :: rest =>
      st' ← place_pair centerline half_w st i pt;
      place_pairs centerline half_w rest st'
  end.

(** The body of [for i in range(len(centerline) - 1)]: the [ValueError] of
    [bm.faces.new] is caught and ignored, an [IndexError] is not. *)
Definition add_quad (st : Strip) (i : nat) : option Strip :=
  l0 ← verts_left st !! i;
  r0 ← verts_right st !! i;
  r1 ← verts_right st !! (i + 1)%nat;
  l1 ← verts_left st !! (i + 1)%nat;
  match faces_new (bm st) [l0; r0; r1; l1] with
  | Some bm' => Some (mkStrip bm' (verts_left st) (verts_right st))
  | None => Some st
  end.

Fixpoint add_quads (indices : list nat) (st : Strip) : option Strip :=
  match indices with
  | [] => Some st
  | i :: rest => st' ← add_quad st i; add_quads rest st'
  end.

(** [loop[uv_layer].uv = (co.x * 2.0, co.y * 2.0)] for the loops of a face. *)
Definition face_uvs (bm : BMesh) (face : list nat) : option (list (R * R)) :=
  mapM (fun v => co ← bm_verts bm !! v; Some (vx co * 2.0, vy co * 2.0)) face.

(** [build_path_mesh(obj, centerline, width, uv=True)]: the mesh written to
    [obj.data]; [None] is an uncaught exception. *)
Definition build_path_mesh (centerline : list Vector) (width : R) (uv : bool)
  : option MeshData :=
  let half_w := width / 2.0 in
  st ← place_pairs centerline half_w
         (zip (seq 0 (length centerline)) centerline)
         (mkStrip bmesh_new [] []);
  st ← add_quads (seq 0 (length centerline - 1)) st;
  uvs ← (if uv then Some <$> mapM (face_uvs (bm st)) (bm_faces (bm st))
         else Some None);
  Some (mkMeshData (bm_verts (bm st)) (bm_faces (bm st)) uvs).

(** No two consecutive points of the centerline coincide. *)
Definition consecutive_distinct (centerline : list Vector) : Prop :=
  forall i a b, centerline !! i = Some a -> centerline !! (i + 1)%nat = Some b -> a <> b.

(** Vertex numbering of the strip: sample [i] owns the vertices [2 i]
    (left) and [2 i + 1] (right); quad [i] joins samples [i] and [i + 1]. *)
Definition lefts (n : nat) : list nat := (fun i => (2 * i)%nat) <$> seq 0 n.
Definition rights (n : nat) : list nat := (fun i => (2 * i + 1)%nat) <$> seq 0 n.
Definition quad (i : nat) : list nat :=
  [2 * i; 2 * i + 1; 2 * (i + 1) + 1; 2 * (i + 1)]%nat.
Definition quads (n : nat) : list (list nat) := quad <$> seq 0 n.

End Ribbon.

(** ** fix_terrain_cut.py: the sloped elliptical cut *)

Module Terrain.
Import Num.
Local Open Scope R_scope.

(** A mesh vertex; [v.co.x], [v.co.y], [v.co.z]. *)
Record Vertex := mkVertex { co_x : R; co_y : R; co_z : R }.

(** The module-level constants of the script.  [CLEARANCE] is declared by
    the script but not read by [cut_mesh]. *)
Record CutConfig := mkCutConfig {
  GOLF_CENTER : R * R;
  GOLF_HIGH : R * R;
  GOLF_LOW : R * R;
  CUT_RX : R;
  CUT_RY : R;
  CUT_Z_HIGH : R;
  CUT_Z_LOW : R
}.

(** The values the script assigns. *)
Definition golf_course : CutConfig :=
  {| GOLF_CENTER := (20.85, 38.5);
     GOLF_HIGH := (21.7, 37.0);
     GOLF_LOW := (20.0, 40.0);
     CUT_RX := 6.5;
     CUT_RY := 7.5;
     CUT_Z_HIGH := 0.90;
     CUT_Z_LOW := 0.10 |}.

(** [smoothstep(t)] *)
Definition smoothstep (t : R) : R :=
  let t := clamp01 t in
  t * t * (3.0 - 2.0 * t).

Section Cut.
Variable cfg : CutConfig.

(** [slope_direction()]: unit vector from the high end to the low end, and
    the distance between them. *)
Definition slope_direction : option (R * R * R) :=
  let dx := (GOLF_LOW cfg).1 - (GOLF_HIGH cfg).1 in
  let dy := (GOLF_LOW cfg).2 - (GOLF_HIGH cfg).2 in
  let length := sqrt (dx * dx + dy * dy) in
  sx ← fdiv dx length;
  sy ← fdiv dy length;
  Some (sx, sy, length).

(** The body of [for v in bm_obj.verts]: the vertex after the iteration and
    the running value of [modified]. *)
Definition cut_vertex (slope : R * R * R) (v : Vertex) (modified : nat)
  : option (Vertex * nat) :=
  let '(slope_dx, slope_dy, slope_len) := slope in
  let '(cx, cy) := GOLF_CENTER cfg in
  ex ← fdiv (co_x v - cx) (CUT_RX cfg);
  ey ← fdiv (co_y v - cy) (CUT_RY cfg);
  let dist := sqrt (ex * ex + ey * ey) in
  if Rge_dec dist 1.0 then Some (v, modified)
  else
    let px := co_x v - (GOLF_HIGH cfg).1 in
    let py := co_y v - (GOLF_HIGH cfg).2 in
    t_slope ← fdiv (px * slope_dx + py * slope_dy) slope_len;
    let t_slope := clamp01 t_slope in
    let target_z := CUT_Z_HIGH cfg + t_slope * (CUT_Z_LOW cfg - CUT_Z_HIGH cfg) in
    let blend :=
      if Rlt_dec dist 0.55 then 1.0
      else 1.0 - smoothstep ((dist - 0.55) / 0.45) in
    let new_z := co_z v * (1.0 - blend) + target_z * blend in
    if Rlt_dec new_z (co_z v)
    then Some (mkVertex (co_x v) (co_y v) new_z, S modified)
    else Some (v, modified).

(** The loop over the vertices of the working copy. *)
Fixpoint cut_loop (slope : R * R * R) (verts : list Vertex) (modified : nat)
  : option (list Vertex * nat) :=
  match verts with
  | [] => Some ([], modified)
  | v :: rest =>
      r ← cut_vertex slope v modified;
      k ← cut_loop slope rest r.2;
      Some (r.1 :: k.1, k.2)
  end.

(** [cut_mesh(obj)], on the vertices of [obj.data].  The loop edits a
    working copy ([bmesh.new(); from_mesh]) that is written back by
    [to_mesh] after the loop; an exception before that leaves [obj.data] as
    it was.  The result pairs the vertices of [obj.data] afterwards with the
    return value ([None]: an exception was raised). *)
Definition cut_mesh (obj_data : list Vertex) : list Vertex * option nat :=
  match slope ← slope_direction; cut_loop slope obj_data 0 with
  | Some (verts, modified) => (verts, Some modified)
  | None => (obj_data, None)
  end.

(** The quantities the script's comments name, as functions of a vertex:
    the normalized elliptical distance from the cut center and the
    slope-interpolated target height. *)
Definition ellipse_dist (v : Vertex) : R :=
  let ex := (co_x v - (GOLF_CENTER cfg).1) / CUT_RX cfg in
  let ey := (co_y v - (GOLF_CENTER cfg).2) / CUT_RY cfg in
  sqrt (ex * ex + ey * ey).

Definition slope_target_z (v : Vertex) : R :=
  let dx := (GOLF_LOW cfg).1 - (GOLF_HIGH cfg).1 in
  let dy := (GOLF_LOW cfg).2 - (GOLF_HIGH cfg).2 in
  let length := sqrt (dx * dx + dy * dy) in
  let px := co_x v - (GOLF_HIGH cfg).1 in
  let py := co_y v - (GOLF_HIGH cfg).2 in
  let t_slope := clamp01 ((px * (dx / length) + py * (dy / length)) / length) in
  CUT_Z_HIGH cfg + t_slope * (CUT_Z_LOW cfg - CUT_Z_HIGH cfg).

(** No division of [cut_mesh] has a zero divisor. *)
Definition well_formed : Prop :=
  CUT_RX cfg <> 0 /\ CUT_RY cfg <> 0 /\ GOLF_HIGH cfg <> GOLF_LOW cfg.

(** Strictly inside the cut ellipse. *)
Definition inside_ellipse (v : Vertex) : Prop := ellipse_dist v < 1.0.

(** A vertex the cut lowers: strictly inside the ellipse and strictly above
    the target height of the cut at its position. *)
Definition is_cut (v : Vertex) : Prop :=
  ellipse_dist v < 1.0 /\ slope_target_z v < co_z v.

(** The blend factor at a normalized distance: the full cut in the inner
    zone, a smooth transition to the rim. *)
Definition blend_factor (dist : R) : R :=
  if Rlt_dec dist 0.55 then 1.0
  else 1.0 - smoothstep ((dist - 0.55) / 0.45).

(** The height of a vertex blended toward the target. *)
Definition blended_z (v : Vertex) : R :=
  co_z v * (1.0 - blend_factor (ellipse_dist v))
  + slope_target_z v * blend_factor (ellipse_dist v).

End Cut.

#[global] Instance Rlt_decision (a b : R) : Decision (a < b) := Rlt_dec a b.
#[global] Instance Rge_decision (a b : R) : Decision (a >= b) := Rge_dec a b.
#[global] Instance inside_ellipse_dec cfg v : Decision (inside_ellipse cfg v) :=
  Rlt_dec _ _.
#[global] Instance is_cut_dec cfg v : Decision (is_cut cfg v) :=
  and_dec (Rlt_dec _ _) (Rlt_dec _ _).

(** The vertex after the cut, by cases. *)
Definition lowered (cfg : CutConfig) (v : Vertex) : Vertex :=
  if decide (is_cut cfg v) then mkVertex (co_x v) (co_y v) (blended_z cfg v) else v.


End Terrain.

(** ** build_hole_5.py, build_eskdale_theme.py: rotation drivers *)

Module Driver.
Local Open Scope R_scope.

Definition FPS : Z := 30.
Definition REVOLUTION_SECONDS : Z := 4.
Definition REVOLUTION_FRAMES : Z := FPS * REVOLUTION_SECONDS.

(** The function of [frame] that the scripted expression
    [f"frame * (2 * 3.14159 / {REVOLUTION_FRAMES})"] denotes; [frame] is
    bound to the scene's [frame_current]. *)
Definition windmill_rotation (frame : Z) : R :=
  IZR frame * (2 * 3.14159 / IZR REVOLUTION_FRAMES).

(** ["frame * (2 * 3.14159 / 180)"], the waterwheel of the Eskdale theme. *)
Definition waterwheel_rotation (frame : Z) : R :=
  IZR frame * (2 * 3.14159 / 180).

(** Two angles in radians that differ by a whole number of turns. *)
Definition same_angle (a b : R) : Prop :=
  exists k : Z, b - a = IZR k * (2 * PI).

End Driver.

(** ** Exceptions *)

Module Py.

Inductive exn : Type :=
| RuntimeError (msg : string)
| AttributeError (msg : string).

Inductive outcome (A : Type) : Type :=
| Returned (a : A)
| Raised (e : exn).
Arguments Returned {A} a.
Arguments Raised {A} e.

(** Truth value of an optional string argument ([if parent_name:]). *)
Definition truthy (o : option string) : option string :=
  match o with
  | Some s => if decide (s = EmptyString) then None else Some s
  | None => None
  end.

End Py.

(** ** The host's data blocks and the helpers that look them up *)

Module Scene.
Import Py.

Definition RGBA : Type := R * R * R * R.

(** The inputs of the Principled BSDF node that the scripts write. *)
Record BSDF := mkBSDF {
  base_color : RGBA;
  metallic : R;
  roughness : R
}.

(** A material: [use_nodes] and the node named "Principled BSDF" of its
    node tree, when there is one. *)
Record Material := mkMaterial {
  use_nodes : bool;
  principled_bsdf : option BSDF
}.

(** A collection: the names of its child collections and of its objects. *)
Record Collection := mkCollection {
  children : gset string;
  col_objects : gset string
}.

Inductive ObData : Type :=
| MeshOf (mesh : string)
| NoData.

#[global] Instance ObData_eq_dec : EqDecision ObData.
Proof. solve_decision. Defined.

(** An object; [obj.type == 'MESH'] when its data is a mesh. *)
Record Object := mkObject { ob_data : ObData }.

(** A mesh datablock: its material slots. *)
Record Mesh := mkMesh { mesh_materials : list string }.

(** [bpy.data] and [bpy.context.scene.collection]. *)
Record Scene := mkScene {
  materials : gmap string Material;
  collections : gmap string Collection;
  meshes : gmap string Mesh;
  objects : gmap string Object;
  scene_collection : Collection
}.

Definition empty_scene : Scene :=
  mkScene ∅ ∅ ∅ ∅ (mkCollection ∅ ∅).

Definition with_materials (s : Scene) m : Scene :=
  mkScene m (collections s) (meshes s) (objects s) (scene_collection s).
Definition with_collections (s : Scene) c : Scene :=
  mkScene (materials s) c (meshes s) (objects s) (scene_collection s).
Definition with_meshes (s : Scene) m : Scene :=
  mkScene (materials s) (collections s) m (objects s) (scene_collection s).
Definition with_objects (s : Scene) o : Scene :=
  mkScene (materials s) (collections s) (meshes s) o (scene_collection s).
Definition with_scene_collection (s : Scene) c : Scene :=
  mkScene (materials s) (collections s) (meshes s) (objects s) c.

(** The node tree the host builds when [use_nodes] is switched on: a gray
    Principled BSDF. *)
Definition default_bsdf : BSDF :=
  mkBSDF (0.8, 0.8, 0.8, 1.0)%R 0.0%R 0.5%R.

(** [mesh.users]: the objects whose data is the mesh. *)
Definition mesh_users (s : Scene) (mesh : string) : nat :=
  size (filter (fun kv => ob_data kv.2 = MeshOf mesh) (objects s)).

Section Host.
(** The name the host gives a new data block: [unique_name taken name] is
    [name] when no block of that kind has it, and a name with a numeric
    suffix otherwise. *)
Variable unique_name : gset string -> string -> string.

(** *** Host operations *)

(** [bpy.data.materials.new(name=name)] *)
Definition materials_new (name : string) (s : Scene) : Scene * string :=
  let h := unique_name (dom (materials s)) name in
  (with_materials s (<[h := mkMaterial false None]> (materials s)), h).

(** [mat.use_nodes = True] *)
Definition set_use_nodes (h : string) (s : Scene) : Scene :=
  with_materials s
    (alter (fun m => mkMaterial true
                       (match principled_bsdf m with
                        | Some b => Some b
                        | None => Some default_bsdf
                        end)) h (materials s)).

(** [bpy.data.collections.new(name)] *)
Definition collections_new (name : string) (s : Scene) : Scene * string :=
  let h := unique_name (dom (collections s)) name in
  (with_collections s (<[h := mkCollection ∅ ∅]> (collections s)), h).

(** [parent.children.link(col)] *)
Definition children_link (parent col : string) (s : Scene) : Scene :=
  with_collections s
    (alter (fun c => mkCollection ({[col]} ∪ children c) (col_objects c))
           parent (collections s)).

(** [bpy.context.scene.collection.children.link(col)] *)
Definition scene_children_link (col : string) (s : Scene) : Scene :=
  with_scene_collection s
    (mkCollection ({[col]} ∪ children (scene_collection s))
                  (col_objects (scene_collection s))).

(** [col.objects.link(obj)] and [col.objects.unlink(obj)] *)
Definition objects_link (col obj : string) (s : Scene) : Scene :=
  with_collections s
    (alter (fun c => mkCollection (children c) ({[obj]} ∪ col_objects c))
           col (collections s)).
Definition objects_unlink (col obj : string) (s : Scene) : Scene :=
  with_collections s
    (alter (fun c => mkCollection (children c) (col_objects c ∖ {[obj]}))
           col (collections s)).
Definition scene_objects_unlink (obj : string) (s : Scene) : Scene :=
  with_scene_collection s
    (mkCollection (children (scene_collection s))
                  (col_objects (scene_collection s) ∖ {[obj]})).

(** [bpy.data.meshes.new(name)], [bpy.data.meshes.remove(mesh)] *)
Definition meshes_new (name : string) (s : Scene) : Scene * string :=
  let h := unique_name (dom (meshes s)) name in
  (with_meshes s (<[h := mkMesh []]> (meshes s)), h).
Definition meshes_remove (mesh : string) (s : Scene) : Scene :=
  with_meshes s (delete mesh (meshes s)).

(** [bpy.data.objects.new(name, data)] *)
Definition objects_new (name : string) (data : ObData) (s : Scene) : Scene * string :=
  let h := unique_name (dom (objects s)) name in
  (with_objects s (<[h := mkObject data]> (objects s)), h).

(** [bpy.data.objects.remove(obj, do_unlink=True)]: the object leaves the
    data and every collection that holds it. *)
Definition objects_remove (obj : string) (s : Scene) : Scene :=
  mkScene (materials s)
          ((fun c => mkCollection (children c) (col_objects c ∖ {[obj]}))
             <$> collections s)
          (meshes s)
          (delete obj (objects s))
          (mkCollection (children (scene_collection s))
                        (col_objects (scene_collection s) ∖ {[obj]})).

(** [obj.data.materials.append(mat)] *)
Definition materials_append (obj mat : string) (s : Scene) : Scene :=
  match objects s !! obj with
  | Some (mkObject (MeshOf mesh)) =>
      with_meshes s
        (alter (fun m => mkMesh (mesh_materials m ++ [mat])) mesh (meshes s))
  | _ => s
  end.

End Host.

(** A naming function of the kind the host uses: the name itself when it
    is free, and the first free [name.001], [name.002], ... otherwise. *)
Definition pad3 (n : nat) : string :=
  if decide (n < 10) then "00" +:+ pretty n
  else if decide (n < 100) then "0" +:+ pretty n
  else pretty n.

Fixpoint first_free (fuel n : nat) (taken : gset string) (name : string) : string :=
  let candidate := name +:+ "." +:+ pad3 n in
  match fuel with
  | 0 => candidate
  | S fuel =>
      if decide (candidate ∈ taken) then first_free fuel (S n) taken name
      else candidate
  end.

Definition numbered_name (taken : gset string) (name : string) : string :=
  if decide (name ∈ taken) then first_free (size taken) 1 taken name else name.

(** A scene that holds one material. *)
Definition water : Material := mkMaterial true (Some default_bsdf).
Definition scene_with_water : Scene :=
  with_materials empty_scene {["Water" := water]}.

(** The set of object names and the object count of a scene. *)
Definition object_names (s : Scene) : gset string := dom (objects s).
Definition object_count (s : Scene) : nat := size (objects s).

End Scene.

(** ** hole_builder_utils.py: materials, collections, objects *)

Module Utils.
Import Py Scene.

Section Host.
Variable unique_name : gset string -> string -> string.

(** [get_or_create_material(name, base_color=None, metallic=0.0,
    roughness=0.5)]: the scene afterwards and the material returned. *)
Definition get_or_create_material (name : string) (color : option RGBA)
    (metal rough : R) (s : Scene) : Scene * string :=
  match materials s !! name with
  | Some _ => (s, name)
  | None =>
      let '(s, mat) := materials_new unique_name name s in
      let s := set_use_nodes mat s in
      let bsdf := materials s !! mat ≫= principled_bsdf in
      match bsdf, color with
      | Some _, Some c =>
          (with_materials s
             (alter (fun m => mkMaterial (use_nodes m) (Some (mkBSDF c metal rough)))
                    mat (materials s)), mat)
      | _, _ => (s, mat)
      end
  end.

(** [ensure_collection(name, parent_name=None)] *)
Definition ensure_collection (name : string) (parent_name : option string)
    (s : Scene) : Scene * string :=
  match collections s !! name with
  | Some _ => (s, name)
  | None =>
      let '(s, col) := collections_new unique_name name s in
      match truthy parent_name with
      | Some p =>
          match collections s !! p with
          | Some _ => (children_link p col s, col)
          | None => (scene_children_link col s, col)
          end
      | None => (scene_children_link col s, col)
      end
  end.

(** [link_to_collection(obj, collection_name)] *)
Definition link_to_collection (obj collection_name : string) (s : Scene) : Scene :=
  let '(s, col) :=
    match collections s !! collection_name with
    | Some _ => (s, collection_name)
    | None => ensure_collection collection_name None s
    end in
  let s :=
    match collections s !! col with
    | Some c => if decide (obj ∈ col_objects c) then s else objects_link col obj s
    | None => s
    end in
  let s :=
    if decide (obj ∈ col_objects (scene_collection s))
    then scene_objects_unlink obj s else s in
  with_collections s
    (map_imap (fun k c =>
                 Some (if decide (k ≠ col ∧ obj ∈ col_objects c)
                       then mkCollection (children c) (col_objects c ∖ {[obj]})
                       else c))
              (collections s)).

(** [remove_existing(name)] *)
Definition remove_existing (name : string) (s : Scene) : Scene :=
  match objects s !! name with
  | Some obj =>
      let mesh := match ob_data obj with MeshOf m => Some m | NoData => None end in
      let s := objects_remove name s in
      match mesh with
      | Some m => if decide (mesh_users s m = 0) then meshes_remove m s else s
      | None => s
      end
  | None => s
  end.

(** [create_mesh_object(name, collection_name, material_name=None)] *)
Definition create_mesh_object (name collection_name : string)
    (material_name : option string) (s : Scene) : Scene * string :=
  let s := remove_existing name s in
  let '(s, mesh) := meshes_new unique_name (name +:+ "_mesh") s in
  let '(s, obj) := objects_new unique_name name (MeshOf mesh) s in
  let s := link_to_collection obj collection_name s in
  match truthy material_name with
  | Some m =>
      match materials s !! m with
      | Some _ => (materials_append obj m s, obj)
      | None => (s, obj)
      end
  | None => (s, obj)
  end.

(** A build script as far as its objects go: its create steps in order,
    each a call [create_mesh_object(name, collection_name, material_name)]. *)
Definition run_creates (steps : list (string * string * option string))
    (s : Scene) : Scene :=
  foldl (fun s step => (create_mesh_object step.1.1 step.1.2 step.2 s).1) s steps.

End Host.
End Utils.

(** ** build_hole_5.py: the strict helpers *)

Module Hole5.
Import Py Scene.

(** [get_collection(name)] *)
Definition get_collection (name : string) (s : Scene) : outcome string :=
  match collections s !! name with
  | None =>
      Raised (RuntimeError
                ("Collection '" +:+ name +:+ "' not found. Create it before running this script."))
  | Some _ => Returned name
  end.

(** [remove_if_exists(name)] *)
Definition remove_if_exists (name : string) (s : Scene) : Scene :=
  match objects s !! name with
  | Some _ => objects_remove name s
  | None => s
  end.

(** [link_to_collection(obj, col_name)]; the exception of [get_collection]
    leaves the scene as it is. *)
Definition link_to_collection (obj col_name : string) (s : Scene)
  : Scene * outcome unit :=
  match get_collection col_name s with
  | Raised e => (s, Raised e)
  | Returned col =>
      let s :=
        match collections s !! col with
        | Some c => if decide (obj ∈ col_objects c) then s else objects_link col obj s
        | None => s
        end in
      let s :=
        if decide (obj ∈ col_objects (scene_collection s))
        then scene_objects_unlink obj s else s in
      (s, Returned ())
  end.

Section Host.
Variable unique_name : gset string -> string -> string.

(** [get_material(name)] *)
Definition get_material (name : string) (s : Scene) : Scene * string :=
  match materials s !! name with
  | None =>
      let '(s, mat) := materials_new unique_name name s in
      (set_use_nodes mat s, mat)
  | Some _ => (s, name)
  end.

(** [assign_material(obj, mat_name)]: the first slot, or a new slot. *)
Definition assign_material (obj mat_name : string) (s : Scene) : Scene :=
  let '(s, mat) := get_material mat_name s in
  match objects s !! obj with
  | Some (mkObject (MeshOf mesh)) =>
      with_meshes s
        (alter (fun m => mkMesh (match mesh_materials m with
                                 | [] => [mat]
                                 | _ :: rest => mat :: rest
                                 end)) mesh (meshes s))
  | _ => s
  end.

(** [create_object_from_bmesh(bm, name, location)], as far as the data
    blocks go. *)
Definition create_object_from_bmesh (name : string) (s : Scene) : Scene * string :=
  let '(s, mesh) := meshes_new unique_name name s in
  objects_new unique_name name (MeshOf mesh) s.

(** The create step the builders of hole 5 repeat ([build_tee_area] and
    the like): [remove_if_exists(name)], [create_object_from_bmesh],
    [assign_material], [link_to_collection]. *)
Definition build_object (name mat_name col_name : string) (s : Scene)
  : Scene * outcome string :=
  let s := remove_if_exists name s in
  let '(s, obj) := create_object_from_bmesh name s in
  let s := assign_material obj mat_name s in
  match link_to_collection obj col_name s with
  | (s, Returned _) => (s, Returned obj)
  | (s, Raised e) => (s, Raised e)
  end.

(** The create steps of a script in order; the first exception ends the
    run and leaves the scene as it is then. *)
Fixpoint run_builds (steps : list (string * string * string)) (s : Scene)
  : Scene * outcome unit :=
  match steps with
  | [] => (s, Returned ())
  | step :: rest =>
      match build_object step.1.1 step.1.2 step.2 s with
      | (s, Returned _) => run_builds rest s
      | (s, Raised e) => (s, Raised e)
      end
  end.

End Host.

(** The names a run attempts: up to and including the first step whose
    collection is missing among the collections [cols]. *)
Fixpoint attempted (cols : gset string) (steps : list (string * string * string))
  : gset string :=
  match steps with
  | [] => ∅
  | step :: rest =>
      {[step.1.1]} ∪ (if decide (step.2 ∈ cols) then attempted cols rest else ∅)
  end.

End Hole5.

(** ** blender_ws.py: the command relay *)

Module Relay.
Import Py.

(** What [json.loads] returns. *)
#[warnings="-register-all"] Inductive json : Type :=
| JNull
| JBool (b : bool)
| JInt (n : Z)
| JFloat (x : R)
| JString (s : string)
| JArray (items : list json)
| JObject (fields : list (string * json)).

(** [d.get(key)] on a parsed object. *)
Fixpoint dict_get (d : list (string * json)) (key : string) : option json :=
  match d with
  | [] => None
  | (k, v) :: rest => if decide (k = key) then Some v else dict_get rest key
  end.

(** [v == "error"]: true for the string ["error"] only. *)
Definition is_error_status (v : option json) : bool :=
  match v with
  | Some (JString s) => bool_decide (s = "error")
  | _ => false
  end.

(** [sub in s] *)
Definition contains (s sub : string) : Prop :=
  exists pre post, s = pre +:+ sub +:+ post.

Section Reply.
(** [str(v)], as the f-string formats the value; a string formats as
    itself. *)
Variable py_str : json -> string.

(** [send_command(tool, params, timeout)] from the parsed reply on: the
    statements after [result = json.loads(ws.recv())].  An exception of the
    connection or of the parser is raised before this point. *)
Definition send_command (result : json) : outcome json :=
  match result with
  | JObject d =>
      if is_error_status (dict_get d "status")
      then Raised (RuntimeError
                     ("Blender error: "
                      +:+ py_str (default (JString "unknown") (dict_get d "error"))))
      else Returned (default result (dict_get d "data"))
  | _ => Raised (AttributeError "object has no attribute 'get'")
  end.

End Reply.

(** The reply is an object whose ["status"] is the string ["error"]. *)
Definition error_reply (result : json) : Prop :=
  exists d, result = JObject d /\ dict_get d "status" = Some (JString "error").

Definition raises {A} (o : outcome A) : Prop := exists e, o = Raised e.

(** A formatter that is enough to run examples: strings as they are, the
    constants as Python prints them. *)
Definition simple_str (v : json) : string :=
  match v with
  | JString s => s
  | JNull => "None"
  | JBool true => "True"
  | JBool false => "False"
  | _ => "<value>"
  end.

End Relay.

(** ** Theorems *)

Module NumFacts.
Import Num.
Local Open Scope R_scope.

Ltac case_Rle :=
  repeat match goal with
         | |- context [Rle_dec ?a ?b] => destruct (Rle_dec a b)
         | H : context [Rle_dec ?a ?b] |- _ => destruct (Rle_dec a b)
         end.

Lemma fdiv_Some a b : b <> 0 -> fdiv a b = Some (a / b).
Proof. intros Hb. unfold fdiv. destruct (Req_dec_T b 0); [contradiction | reflexivity]. Qed.

Lemma fdiv_zero a : fdiv a 0 = None.
Proof. unfold fdiv. destruct (Req_dec_T 0 0); [reflexivity | contradiction]. Qed.

Lemma clamp01_range t : 0 <= clamp01 t <= 1.
Proof.
  unfold clamp01, Rmax, Rmin. case_Rle; lra.
Qed.

Lemma clamp01_id t : 0 <= t <= 1 -> clamp01 t = t.
Proof.
  intros [H0 H1]. unfold clamp01, Rmax, Rmin. case_Rle; lra.
Qed.

End NumFacts.


Module CurveFacts.
Import Num NumFacts Curve.
Local Open Scope R_scope.


Lemma catmull_rom_at_1 p0 p1 p2 p3 : catmull_rom p0 p1 p2 p3 1 = p2.
Proof. unfold catmull_rom. lra. Qed.







(** Without a segment the loops add nothing and the chain is the last
    control point alone. *)
Lemma catmull_rom_chain_no_segments (points : list Vector) (segments_per_span : Z) :
  (2 <= length points)%nat -> (segments_per_span <= 0)%Z ->
  exists final, last points = Some final
                /\ catmull_rom_chain points segments_per_span = Some [final].
Proof.
  intros Hlen Hseg. unfold catmull_rom_chain.
  destruct (decide (length points < 2)%nat) as [Hlt|_]; [lia|].
  destruct points as [|a [|b rest]]; simpl in Hlen; try lia.
  destruct (last (a :: b :: rest)) as [z|] eqn:Hlast;
    [|by rewrite last_cons_cons, last_None in Hlast].
  exists z. split; [done|]. cbn [head mbind option_bind].
  set (pts := [a] ++ (a :: b :: rest) ++ [z]).
  assert (Hpl : length pts = (length rest + 4)%nat)
    by (unfold pts; rewrite !length_app; simpl; lia).
  assert (Hspans : mapM (span_samples pts segments_per_span) (seq 1 (length pts - 3))
                   = Some (replicate (length pts - 3) [])).
  { apply mapM_Some. unfold span_samples.
    replace (Z.to_nat segments_per_span) with 0%nat by lia. cbn [seq mapM].
    generalize (length pts - 3)%nat as n. intros n. generalize 1%nat as k.
    induction n as [|n IH]; intros k; cbn; constructor; auto. }
  rewrite Hspans. cbn [mbind option_bind].
  assert (Hanchor : pts !! (length pts - 2)%nat = Some z).
  { replace (length pts - 2)%nat with (S (pred (length (a :: b :: rest))))
      by (rewrite Hpl; cbn [length]; lia).
    change pts with (a :: ((a :: b :: rest) ++ [z])). rewrite lookup_cons.
    rewrite lookup_app_l by (cbn [length]; lia).
    by rewrite <- last_lookup. }
  rewrite Hanchor. cbn [mbind option_bind].
  assert (Hnil : forall n, concat (replicate n (@nil Vector)) = [])
    by (induction n; cbn; done).
  by rewrite Hnil.
Qed.

(** Two points, two segments: the ends and the midpoint. *)
Example catmull_rom_chain_two_points :
  catmull_rom_chain [mkVector 0 0 0; mkVector 2 0 0] 2
  = Some [mkVector 0 0 0; mkVector 1 0 0; mkVector 2 0 0].
Proof.
  unfold catmull_rom_chain. rewrite decide_False by (cbn; lia).
  unfold span_samples, span_point. change (Z.to_nat 2) with 2%nat. cbn.
  unfold catmull_rom. repeat f_equal; lra.
Qed.

(** Fewer than two points: the list comes back as it is. *)
Lemma catmull_rom_chain_short (points : list Vector) segs :
  (length points < 2)%nat -> catmull_rom_chain points segs = Some points.
Proof.
  intros H. unfold catmull_rom_chain. by destruct (decide (length points < 2)%nat).
Qed.

End CurveFacts.

Module RibbonFacts.
Import Num Curve Ribbon.

Lemma lefts_S n : lefts (S n) = lefts n ++ [2 * n].
Proof. unfold lefts. by rewrite seq_S, fmap_app. Qed.

Lemma rights_S n : rights (S n) = rights n ++ [2 * n + 1].
Proof. unfold rights. by rewrite seq_S, fmap_app. Qed.

Lemma quads_S n : quads (S n) = quads n ++ [quad n].
Proof. unfold quads. by rewrite seq_S, fmap_app. Qed.

Lemma lefts_lookup n i : i < n -> lefts n !! i = Some (2 * i).
Proof.
  intros Hi. unfold lefts. rewrite list_lookup_fmap, lookup_seq_lt by done. done.
Qed.

Lemma rights_lookup n i : i < n -> rights n !! i = Some (2 * i + 1).
Proof.
  intros Hi. unfold rights. rewrite list_lookup_fmap, lookup_seq_lt by done. done.
Qed.

Lemma quads_length n : length (quads n) = n.
Proof. unfold quads. by rewrite length_fmap, length_seq. Qed.

Lemma quads_arity n : Forall (fun f => length f = 4) (quads n).
Proof. unfold quads. apply Forall_fmap, Forall_forall. by intros. Qed.

Lemma quad_NoDup i : NoDup (quad i).
Proof.
  unfold quad. repeat (apply NoDup_cons; split); try apply NoDup_nil_2;
    rewrite ?elem_of_cons, ?elem_of_nil; lia.
Qed.

Lemma quad_fresh i : ~ Exists (fun f => list_to_set f =@{gset nat} list_to_set (quad i)) (quads i).
Proof.
  rewrite Exists_exists. intros (f & Hf & Heq).
  unfold quads in Hf. apply list_elem_of_fmap in Hf. destruct Hf as (j & -> & Hj).
  apply elem_of_seq in Hj.
  assert (Hin : 2 * (i + 1) + 1 ∈@{gset nat} list_to_set (quad i))
    by (unfold quad; rewrite elem_of_list_to_set, !elem_of_cons; auto).
  rewrite <- Heq in Hin. unfold quad in Hin.
  rewrite elem_of_list_to_set, !elem_of_cons, elem_of_nil in Hin. lia.
Qed.

Lemma tangent_at_is_Some centerline i :
  2 <= length centerline -> i < length centerline ->
  is_Some (tangent_at centerline i).
Proof.
  intros Hlen Hi. unfold tangent_at.
  repeat case_decide;
    repeat match goal with
           | |- context [centerline !! ?k] =>
               let H := fresh in
               destruct (lookup_lt_is_Some_2 centerline k) as [? H]; [lia|];
               rewrite H; clear H
           end; cbn; eauto.
Qed.

Section Strip.
Variables (centerline : list Vector) (half_w : R).

(** The first loop numbers the vertices as [lefts] and [rights] say. *)
Lemma place_pairs_numbering pts : forall k st,
  (forall i, k <= i < k + length pts -> is_Some (tangent_at centerline i)) ->
  length (bm_verts (bm st)) = 2 * k ->
  verts_left st = lefts k -> verts_right st = rights k ->
  bm_faces (bm st) = [] ->
  exists st', place_pairs centerline half_w (zip (seq k (length pts)) pts) st = Some st'
    /\ length (bm_verts (bm st')) = 2 * (k + length pts)
    /\ verts_left st' = lefts (k + length pts)
    /\ verts_right st' = rights (k + length pts)
    /\ bm_faces (bm st') = [].
Proof.
  induction pts as [|pt pts IH]; intros k st Htan Hn Hl Hr Hf.
  - exists st. cbn. rewrite Nat.add_0_r. done.
  - cbn [length seq zip zip_with place_pairs].
    destruct (Htan k) as [tg Htg]; [cbn; lia|].
    unfold place_pair. rewrite Htg. cbn [mbind option_bind verts_new].
    match goal with |- context [place_pairs _ _ _ ?s] => set (st1 := s) end.
    destruct (IH (S k) st1) as (st' & Hrun & Hn' & Hl' & Hr' & Hf').
    + intros i Hi. apply Htan. cbn [length]. lia.
    + unfold st1. cbn [bm bm_verts]. rewrite !length_app, Hn. cbn [length]. lia.
    + unfold st1. cbn [verts_left]. by rewrite Hl, Hn, lefts_S.
    + unfold st1. cbn [verts_right bm bm_verts]. rewrite Hr, rights_S, length_app, Hn.
      cbn [length]. by rewrite Nat.add_1_r.
    + unfold st1. cbn [bm bm_faces]. exact Hf.
    + exists st'. rewrite Hrun. cbn [length].
      replace (k + S (length pts)) with (S k + length pts) by lia. done.
Qed.

(** One iteration of the second loop adds quad [i]. *)
Lemma add_quad_numbering n st i :
  i + 1 < n ->
  verts_left st = lefts n -> verts_right st = rights n ->
  bm_faces (bm st) = quads i ->
  add_quad st i
  = Some (mkStrip (mkBMesh (bm_verts (bm st)) (quads (S i)))
                  (verts_left st) (verts_right st)).
Proof.
  intros Hi Hl Hr Hf. unfold add_quad.
  rewrite Hl, Hr, !lefts_lookup, !rights_lookup by lia.
  cbn [mbind option_bind]. change [_; _; _; _] with (quad i).
  unfold faces_new. rewrite decide_False by (cbn; lia).
  rewrite decide_True by apply quad_NoDup.
  rewrite decide_False by (unfold face_exists; rewrite Hf; apply quad_fresh).
  by rewrite Hf, quads_S.
Qed.

Lemma add_quads_numbering n m : forall i st,
  i + m < n ->
  verts_left st = lefts n -> verts_right st = rights n ->
  bm_faces (bm st) = quads i ->
  add_quads (seq i m) st
  = Some (mkStrip (mkBMesh (bm_verts (bm st)) (quads (i + m)))
                  (verts_left st) (verts_right st)).
Proof.
  induction m as [|m IH]; intros i st Hi Hl Hr Hf.
  - cbn. rewrite Nat.add_0_r, <- Hf. by destruct st as [[] ? ?].
  - cbn [seq add_quads]. rewrite (add_quad_numbering n) by (done || lia).
    cbn [mbind option_bind].
    rewrite IH by (cbn [verts_left verts_right bm bm_faces]; (done || lia)).
    cbn [verts_left verts_right bm bm_verts].
    by replace (S i + m) with (i + S m) by lia.
Qed.

End Strip.

Lemma face_uvs_is_Some bm face :
  Forall (fun v => v < length (bm_verts bm)) face -> is_Some (face_uvs bm face).
Proof.
  intros Hf. unfold face_uvs. apply mapM_is_Some.
  eapply Forall_impl; [exact Hf|]. intros v Hv. cbn.
  destruct (lookup_lt_is_Some_2 (bm_verts bm) v Hv) as [co ->]. cbn. eauto.
Qed.

Lemma quads_in_range n :
  Forall (Forall (fun v => v < 2 * (n + 1))) (quads n).
Proof.
  unfold quads. apply Forall_fmap, Forall_forall. intros j Hj.
  apply elem_of_seq in Hj. cbn. unfold quad.
  repeat (apply Forall_cons; split); try apply Forall_nil_2; lia.
Qed.

(** The mesh of a centerline of at least two samples: one quad per pair of
    neighbouring samples, on vertices numbered along the strip. *)
Lemma build_path_mesh_faces centerline width uv :
  2 <= length centerline ->
  exists mesh, build_path_mesh centerline width uv = Some mesh
    /\ length (vertices mesh) = 2 * length centerline
    /\ polygons mesh = quads (length centerline - 1).
Proof.
  intros Hlen. unfold build_path_mesh.
  destruct (place_pairs_numbering centerline (width / 2.0)%R centerline 0
              (mkStrip bmesh_new [] []))
    as (st & -> & Hn & Hl & Hr & Hf); try done.
  { intros i Hi. apply tangent_at_is_Some; lia. }
  cbn [mbind option_bind]. cbn [Nat.add] in Hn, Hl, Hr.
  rewrite (add_quads_numbering (length centerline) (length centerline - 1) 0 st)
    by (done || lia).
  cbn [mbind option_bind bm Nat.add bm_verts bm_faces].
  destruct uv.
  - assert (Huv : is_Some (mapM (face_uvs (mkBMesh (bm_verts (bm st))
                                             (quads (length centerline - 1))))
                                (quads (length centerline - 1)))).
    { apply mapM_is_Some. eapply Forall_impl; [apply quads_in_range|].
      intros f Hf'. apply face_uvs_is_Some. cbn. rewrite Hn.
      eapply Forall_impl; [exact Hf'|]. cbn. intros; lia. }
    destruct Huv as [uvs ->]. cbn. eexists. split; [reflexivity|]. cbn. done.
  - cbn. eexists. split; [reflexivity|]. cbn. done.
Qed.

(** C3: for a centerline of at least two samples whose consecutive samples
    differ, [build_path_mesh] writes a mesh of [len(centerline) - 1] faces,
    each on four vertices. *)
Theorem build_path_mesh_quad_strip centerline width uv :
  2 <= length centerline -> consecutive_distinct centerline ->
  exists mesh, build_path_mesh centerline width uv = Some mesh
    /\ length (polygons mesh) = length centerline - 1
    /\ Forall (fun f => length f = 4) (polygons mesh).
Proof.
  intros Hlen _.
  destruct (build_path_mesh_faces centerline width uv Hlen) as (mesh & Hrun & _ & Hp).
  exists mesh. rewrite Hp. split; [done|]. split; [apply quads_length|apply quads_arity].
Qed.

Local Open Scope R_scope.

Lemma normalized_unit_x : normalized (mkVector 1 0 0) = mkVector 1 0 0.
Proof.
  unfold normalized, vlength. cbn.
  replace (1 * 1 + 0 * 0 + 0 * 0) with 1 by lra. rewrite sqrt_1.
  destruct (Req_dec_T 1 0); [lra|]. f_equal; lra.
Qed.

Lemma normalized_unit_y : normalized (mkVector (- 0) 1 0) = mkVector 0 1 0.
Proof.
  unfold normalized, vlength. cbn.
  replace (- 0 * - 0 + 1 * 1 + 0 * 0) with 1 by lra. rewrite sqrt_1.
  destruct (Req_dec_T 1 0); [lra|]. f_equal; lra.
Qed.

(** A straight ribbon of width 0.4 along the x axis: the left vertices
    lie at y = 0.2, the right ones at y = -0.2, and one quad joins them. *)
Example build_path_mesh_straight :
  build_path_mesh [mkVector 0 0 0; mkVector 1 0 0] 0.4 false
  = Some (mkMeshData
            [mkVector 0 0.2 0; mkVector 0 (-0.2) 0; mkVector 1 0.2 0; mkVector 1 (-0.2) 0]
            [[0; 1; 3; 2]%nat] None).
Proof.
  unfold build_path_mesh. cbn [length seq zip zip_with place_pairs].
  unfold place_pair, tangent_at. cbn [length Nat.sub].
  rewrite (decide_True (P := (0 = 0)%nat)) by done.
  rewrite (decide_False (P := (1 = 0)%nat)) by done.
  rewrite (decide_True (P := (1 = 1)%nat)) by done.
  cbn [lookup list_lookup mbind option_bind vsub vx vy vz].
  assert (Hsub : vsub (mkVector 1 0 0) (mkVector 0 0 0) = mkVector 1 0 0)
    by (unfold vsub; cbn; f_equal; lra).
  rewrite !Hsub, !normalized_unit_x. cbn [vx vy vz]. rewrite !normalized_unit_y.
  cbn [verts_new bm bm_verts bm_faces bmesh_new app length verts_left verts_right
       mbind option_bind add_quads add_quad Nat.sub seq lookup list_lookup Nat.add].
  unfold faces_new. rewrite decide_False by (cbn; lia).
  rewrite decide_True by (apply (quad_NoDup 0)).
  rewrite decide_False by (apply (quad_fresh 0)).
  cbn. unfold set_z, vadd, vsub, vscale. cbn. repeat f_equal; lra.
Qed.

(** Coinciding samples still give a quad: the vertices of a face are
    compared as vertices, not by their coordinates. *)
Example build_path_mesh_coinciding :
  exists mesh, build_path_mesh [mkVector 0 0 0; mkVector 0 0 0] 0.4 true = Some mesh
               /\ polygons mesh = [[0; 1; 3; 2]%nat].
Proof.
  destruct (build_path_mesh_faces [mkVector 0 0 0; mkVector 0 0 0] 0.4 true)
    as (mesh & Hrun & _ & Hp); [cbn; lia|]. by exists mesh.
Qed.

Local Close Scope R_scope.

Lemma two_samples_distinct :
  consecutive_distinct [mkVector 0 0 0; mkVector 1 0 0].
Proof.
  intros i a b Ha Hb. destruct i as [|[|i]]; cbn in Ha, Hb; simplify_eq.
  intros [= H]. lra.
Qed.

Lemma build_path_mesh_quad_strip_witness :
  2 <= length [mkVector 0 0 0; mkVector 1 0 0] /\
  consecutive_distinct [mkVector 0 0 0; mkVector 1 0 0] /\
  exists mesh, build_path_mesh [mkVector 0 0 0; mkVector 1 0 0] 0.4 true = Some mesh
    /\ length (polygons mesh) = 1
    /\ Forall (fun f => length f = 4) (polygons mesh).
Proof.
  split; [cbn; lia|]. split; [exact two_samples_distinct|].
  apply (build_path_mesh_quad_strip [mkVector 0 0 0; mkVector 1 0 0] 0.4 true);
    [cbn; lia|exact two_samples_distinct].
Defined.

End RibbonFacts.

Module TerrainFacts.
Import Num NumFacts Terrain.
Local Open Scope R_scope.

Lemma smoothstep_range t : 0 <= smoothstep t <= 1.
Proof.
  unfold smoothstep. pose proof (clamp01_range t) as [H0 H1].
  set (u := clamp01 t) in *.
  assert (0 <= u * u) by nra.
  assert (0 <= (1 - u) * (1 - u) * (1 + 2 * u))
    by (repeat apply Rmult_le_pos; lra).
  split; nra.
Qed.

(** Below the upper end of the ramp the smoothstep stays below one, so the
    blend factor of a vertex inside the ellipse is positive. *)
Lemma smoothstep_lt_1 t : t < 1 -> smoothstep t < 1.
Proof.
  intros Ht. unfold smoothstep.
  assert (Hu : 0 <= clamp01 t < 1).
  { unfold clamp01, Rmax, Rmin. case_Rle; lra. }
  set (u := clamp01 t) in *.
  assert (0 < (1 - u) * (1 - u) * (1 + 2 * u)) by (repeat apply Rmult_lt_0_compat; lra).
  nra.
Qed.

Section CutFacts.
Variable cfg : CutConfig.

(** What one iteration can do to a vertex and to the counter. *)
Lemma cut_vertex_cases slope v m r :
  cut_vertex cfg slope v m = Some r ->
  r = (v, m) \/
  (ellipse_dist cfg v < 1 /\
   exists new_z, new_z < co_z v /\ r = (mkVertex (co_x v) (co_y v) new_z, S m)).
Proof.
  unfold cut_vertex, ellipse_dist. destruct slope as [[sdx sdy] slen].
  destruct (GOLF_CENTER cfg) as [cx cy]. cbn [fst snd].
  unfold fdiv.
  destruct (Req_dec_T (CUT_RX cfg) 0) as [|Hrx]; [discriminate|].
  destruct (Req_dec_T (CUT_RY cfg) 0) as [|Hry]; [discriminate|].
  cbn [mbind option_bind].
  destruct (Rge_dec _ 1.0) as [Hge|Hlt]; [intros [= <-]; by left|].
  destruct (Req_dec_T slen 0) as [|Hsl]; [discriminate|].
  cbn [mbind option_bind].
  destruct (Rlt_dec _ (co_z v)) as [Hz|Hz]; intros [= <-]; [right|by left].
  split; [lra|]. eexists; split; [exact Hz|reflexivity].
Qed.

Lemma cut_loop_Forall2 (P : Vertex -> Vertex -> Prop) slope :
  (forall v m r, cut_vertex cfg slope v m = Some r -> P v r.1) ->
  forall verts m out m',
    cut_loop cfg slope verts m = Some (out, m') -> Forall2 P verts out.
Proof.
  intros HP. induction verts as [|v rest IH]; intros m out m' Hrun; cbn in Hrun.
  - injection Hrun as <- _. constructor.
  - destruct (cut_vertex cfg slope v m) as [r|] eqn:Hv; [|discriminate].
    cbn in Hrun.
    destruct (cut_loop cfg slope rest r.2) as [k|] eqn:Hk; [|discriminate].
    cbn in Hrun. injection Hrun as <- _.
    constructor; [by eapply HP|]. destruct k as [ks km]. by eapply IH.
Qed.

(** Every vertex of the mesh after [cut_mesh] is related to the vertex
    before it, for a relation that one iteration maintains and that holds
    between a vertex and itself. *)
Lemma cut_mesh_Forall2 (P : Vertex -> Vertex -> Prop) :
  (forall v, P v v) ->
  (forall slope v m r, cut_vertex cfg slope v m = Some r -> P v r.1) ->
  forall obj_data, Forall2 P obj_data (cut_mesh cfg obj_data).1.
Proof.
  intros Hrefl HP obj_data. unfold cut_mesh.
  destruct (slope_direction cfg) as [slope|]; cbn [mbind option_bind].
  - destruct (cut_loop cfg slope obj_data 0) as [[verts modified]|] eqn:Hrun.
    + cbn [fst]. eapply cut_loop_Forall2; [|exact Hrun]. apply HP.
    + cbn [fst]. by apply Forall2_same_length_lookup_2; [|intros ??? -> [= ->]].
  - cbn [fst]. by apply Forall2_same_length_lookup_2; [|intros ??? -> [= ->]].
Qed.

(** C2: no vertex is higher after [cut_mesh] than before, whatever the
    constants of the script are. *)
Theorem cut_mesh_only_lowers (obj_data : list Vertex) :
  Forall2 (fun v v' => co_z v' <= co_z v) obj_data (cut_mesh cfg obj_data).1.
Proof.
  apply cut_mesh_Forall2; [intros; lra|].
  intros slope v m r Hr. apply cut_vertex_cases in Hr as [->|(_ & z & Hz & ->)]; cbn; lra.
Qed.

(** C9: [cut_mesh] keeps the x and y coordinate of every vertex, and keeps
    a vertex whole when its normalized elliptical distance from the cut
    center is at least 1.0; a vertex that differs afterwards lies strictly
    inside the ellipse and differs in z only. *)
Theorem cut_mesh_frame (obj_data : list Vertex) :
  Forall2 (fun v v' =>
             co_x v' = co_x v /\ co_y v' = co_y v /\
             (ellipse_dist cfg v >= 1.0 -> v' = v) /\
             (v' <> v -> ellipse_dist cfg v < 1.0 /\ co_z v' <> co_z v))
          obj_data (cut_mesh cfg obj_data).1.
Proof.
  apply cut_mesh_Forall2.
  - intros v. repeat split; try reflexivity; intros; congruence.
  - intros slope v m r Hr.
    apply cut_vertex_cases in Hr as [->|(Hin & z & Hz & ->)]; cbn [fst].
    + repeat split; try reflexivity; intros; congruence.
    + cbn. repeat split; lra.
Qed.

(** *** The return value *)

Lemma blend_positive d :
  0 <= d < 1 ->
  0 < (if Rlt_dec d 0.55 then 1.0 else 1.0 - smoothstep ((d - 0.55) / 0.45)) <= 1.
Proof.
  intros [Hd0 Hd1]. destruct (Rlt_dec d 0.55); [lra|].
  pose proof (smoothstep_range ((d - 0.55) / 0.45)).
  pose proof (smoothstep_lt_1 ((d - 0.55) / 0.45)). lra.
Qed.

Lemma slope_length_nonzero :
  GOLF_HIGH cfg <> GOLF_LOW cfg ->
  sqrt (((GOLF_LOW cfg).1 - (GOLF_HIGH cfg).1) * ((GOLF_LOW cfg).1 - (GOLF_HIGH cfg).1) +
        ((GOLF_LOW cfg).2 - (GOLF_HIGH cfg).2) * ((GOLF_LOW cfg).2 - (GOLF_HIGH cfg).2)) <> 0.
Proof.
  intros Hne Hs. apply Hne.
  destruct (GOLF_HIGH cfg) as [hx hy], (GOLF_LOW cfg) as [lx ly].
  cbn [fst snd] in Hs.
  pose proof (Rle_0_sqr (lx - hx)) as Hx. pose proof (Rle_0_sqr (ly - hy)) as Hy.
  unfold Rsqr in Hx, Hy.
  apply sqrt_eq_0 in Hs; [|lra].
  destruct (Rplus_sqr_eq_0 (lx - hx) (ly - hy)) as [Hx0 Hy0]; [unfold Rsqr; lra|].
  f_equal; lra.
Qed.

Lemma slope_direction_well_formed :
  GOLF_HIGH cfg <> GOLF_LOW cfg ->
  exists sx sy len, slope_direction cfg = Some (sx, sy, len) /\ len <> 0 /\
    forall v, slope_target_z cfg v =
      CUT_Z_HIGH cfg +
      clamp01 (((co_x v - (GOLF_HIGH cfg).1) * sx + (co_y v - (GOLF_HIGH cfg).2) * sy) / len)
      * (CUT_Z_LOW cfg - CUT_Z_HIGH cfg).
Proof.
  intros Hne. pose proof (slope_length_nonzero Hne) as Hlen.
  unfold slope_direction. cbv zeta. rewrite !fdiv_Some by exact Hlen.
  cbn [mbind option_bind]. do 3 eexists. split; [reflexivity|]. split; [exact Hlen|].
  intros v. reflexivity.
Qed.

Lemma cut_vertex_lowered sx sy len v m :
  CUT_RX cfg <> 0 -> CUT_RY cfg <> 0 -> len <> 0 ->
  slope_target_z cfg v =
    CUT_Z_HIGH cfg +
    clamp01 (((co_x v - (GOLF_HIGH cfg).1) * sx + (co_y v - (GOLF_HIGH cfg).2) * sy) / len)
    * (CUT_Z_LOW cfg - CUT_Z_HIGH cfg) ->
  cut_vertex cfg (sx, sy, len) v m
  = Some (lowered cfg v, (m + (if decide (is_cut cfg v) then 1 else 0))%nat).
Proof.
  intros Hrx Hry Hlen Htarget. unfold lowered.
  assert (Hcut : is_cut cfg v <->
                 ellipse_dist cfg v < 1.0 /\ slope_target_z cfg v < co_z v) by done.
  assert (Hz : blended_z cfg v
               = co_z v * (1.0 - blend_factor (ellipse_dist cfg v))
                 + slope_target_z cfg v * blend_factor (ellipse_dist cfg v)) by done.
  rewrite Htarget in Hcut, Hz. clear Htarget. revert Hcut Hz.
  unfold cut_vertex, ellipse_dist, blend_factor.
  destruct (GOLF_CENTER cfg) as [cx cy]. cbn [fst snd].
  rewrite !fdiv_Some by assumption. cbn [mbind option_bind].
  set (dist := sqrt _).
  assert (Hd0 : 0 <= dist) by apply sqrt_pos.
  set (target := CUT_Z_HIGH cfg + _ * _). intros Hcut Hz.
  destruct (Rge_dec dist 1.0) as [Hge|Hlt].
  - rewrite !decide_False by (rewrite Hcut; lra). by rewrite Nat.add_0_r.
  - assert (Hb : 0 <= dist < 1) by lra. apply blend_positive in Hb.
    set (blend := if Rlt_dec dist 0.55 then _ else _) in *.
    destruct (Rlt_dec _ (co_z v)) as [Hlow|Hlow].
    + rewrite !decide_True by (rewrite Hcut; split; [lra|nra]).
      by rewrite Nat.add_1_r, Hz.
    + rewrite !decide_False by (rewrite Hcut; intros [_ ?]; nra). by rewrite Nat.add_0_r.
Qed.

Lemma cut_loop_lowered sx sy len :
  CUT_RX cfg <> 0 -> CUT_RY cfg <> 0 -> len <> 0 ->
  (forall v, slope_target_z cfg v =
    CUT_Z_HIGH cfg +
    clamp01 (((co_x v - (GOLF_HIGH cfg).1) * sx + (co_y v - (GOLF_HIGH cfg).2) * sy) / len)
    * (CUT_Z_LOW cfg - CUT_Z_HIGH cfg)) ->
  forall verts m,
    cut_loop cfg (sx, sy, len) verts m
    = Some (lowered cfg <$> verts, (m + length (filter (is_cut cfg) verts))%nat).
Proof.
  intros Hrx Hry Hlen Htarget. induction verts as [|v rest IH]; intros m.
  - cbn. by rewrite Nat.add_0_r.
  - cbn [cut_loop].
    rewrite (cut_vertex_lowered sx sy len v m Hrx Hry Hlen (Htarget v)).
    cbn [mbind option_bind snd fst]. rewrite IH. cbn [mbind option_bind snd fst fmap list_fmap].
    do 2 f_equal. rewrite filter_cons.
    destruct (decide (is_cut cfg v)); cbn [length]; lia.
Qed.

(** What [cut_mesh] computes when no divisor is zero: every vertex is
    lowered on its own, and the lowered ones are counted. *)
Lemma cut_mesh_returns (obj_data : list Vertex) :
  well_formed cfg ->
  cut_mesh cfg obj_data
  = (lowered cfg <$> obj_data, Some (length (filter (is_cut cfg) obj_data))).
Proof.
  intros (Hrx & Hry & Hne).
  destruct (slope_direction_well_formed Hne) as (sx & sy & len & Hs & Hlen & Htarget).
  unfold cut_mesh. rewrite Hs. cbn [mbind option_bind].
  by rewrite (cut_loop_lowered sx sy len Hrx Hry Hlen Htarget obj_data 0).
Qed.


End CutFacts.

(** *** The constants of the script *)

Lemma golf_course_well_formed : well_formed golf_course.
Proof.
  unfold well_formed, golf_course; cbn. repeat split; try lra.
  intros [= H1 H2]. lra.
Qed.




Lemma center_dist z : ellipse_dist golf_course (mkVertex 20.85 38.5 z) = 0.
Proof.
  unfold ellipse_dist, golf_course. cbn.
  replace (_ + _) with 0 by lra. apply sqrt_0.
Qed.

(** Halfway down the slope the target height is halfway between the ends. *)
Lemma center_target z : slope_target_z golf_course (mkVertex 20.85 38.5 z) = 0.5.
Proof.
  unfold slope_target_z, golf_course. cbn.
  set (len := sqrt _).
  assert (Hsq : len * len = 11.89) by (unfold len; rewrite sqrt_sqrt; lra).
  assert (Hlen : len <> 0) by (intros H; rewrite H in Hsq; lra).
  assert (Hproj : forall a b c d,
             (a * (c / len) + b * (d / len)) / len = (a * c + b * d) / (len * len))
    by (intros; field; exact Hlen).
  rewrite Hproj, Hsq. rewrite clamp01_id by lra. lra.
Qed.

(** A vertex at the cut center at height 1 is cut down to the target. *)
Example cut_mesh_center_vertex :
  cut_mesh golf_course [mkVertex 20.85 38.5 1]
  = ([mkVertex 20.85 38.5 0.5], Some 1%nat).
Proof.
  rewrite (cut_mesh_returns golf_course _ golf_course_well_formed).
  assert (Hcut : is_cut golf_course (mkVertex 20.85 38.5 1)).
  { split; [rewrite center_dist|rewrite center_target; cbn]; lra. }
  cbn [fmap list_fmap]. unfold lowered. rewrite filter_cons, !decide_True by exact Hcut.
  cbn [filter length]. do 3 f_equal. cbn [co_x co_y].
  unfold blended_z. rewrite center_dist, center_target. unfold blend_factor.
  destruct (Rlt_dec 0 0.55); [cbn; lra|lra].
Qed.



End TerrainFacts.

Module DriverFacts.
Import Driver.
Local Open Scope R_scope.

(** The literal of the drivers is below the circle constant. *)
Lemma literal_below_PI : 3.14159 < PI.
Proof.
  pose proof (PI_2_3_7_ineq 3) as [H _].
  unfold PI_2_3_7_tg, tg_alt, Ratan_seq in H. simpl in H. lra.
Qed.

Lemma windmill_step (F : Z) :
  windmill_rotation (F + REVOLUTION_FRAMES) - windmill_rotation F = 2 * 3.14159.
Proof.
  unfold windmill_rotation. rewrite plus_IZR.
  change (IZR REVOLUTION_FRAMES) with 120. lra.
Qed.

Lemma waterwheel_step (F : Z) :
  waterwheel_rotation (F + 180) - waterwheel_rotation F = 2 * 3.14159.
Proof. unfold waterwheel_rotation. rewrite plus_IZR. lra. Qed.

Example windmill_rotation_120 : windmill_rotation 120 = 6.28318.
Proof. unfold windmill_rotation. change (IZR REVOLUTION_FRAMES) with 120. lra. Qed.

(** Twice the literal is no whole number of turns. *)
Lemma literal_turn_not_whole (k : Z) : 2 * 3.14159 <> IZR k * (2 * PI).
Proof.
  pose proof literal_below_PI as Hpi. intros Heq.
  destruct (Z_lt_le_dec k 1) as [Hk|Hk].
  - assert (IZR k <= 0) by (apply (IZR_le k 0); lia). nra.
  - assert (1 <= IZR k) by (apply (IZR_le 1 k); lia). nra.
Qed.

(** C5 fails on the code: one revolution period later the driver angle
    has advanced by [2 * 3.14159], which is not a whole number of turns. *)
Theorem rotation_drivers_miss_full_turn (F : Z) :
  ~ same_angle (windmill_rotation F) (windmill_rotation (F + REVOLUTION_FRAMES)) /\
  ~ same_angle (waterwheel_rotation F) (waterwheel_rotation (F + 180)).
Proof.
  split; intros [k Hk].
  - rewrite windmill_step in Hk. by apply literal_turn_not_whole in Hk.
  - rewrite waterwheel_step in Hk. by apply literal_turn_not_whole in Hk.
Qed.

End DriverFacts.

Module RelayFacts.
Import Py Relay.

Lemma is_error_status_true v :
  is_error_status v = true <-> v = Some (JString "error").
Proof.
  unfold is_error_status. destruct v as [[]|]; try (split; [discriminate|congruence]).
  rewrite bool_decide_eq_true. split; congruence.
Qed.

Lemma contains_suffix (pre s : string) : contains (pre +:+ s) s.
Proof.
  exists pre, EmptyString. f_equal. clear pre.
  induction s as [|c s IH]; [done|].
  change (String c s +:+ EmptyString) with (String c (s +:+ EmptyString)). by f_equal.
Qed.

Section ReplyFacts.
Variable py_str : json -> string.
Hypothesis py_str_string : forall s, py_str (JString s) = s.

(** A reply that is no object has no [get]. *)
Lemma send_command_non_object items :
  send_command py_str (JArray items)
  = Raised (AttributeError "object has no attribute 'get'").
Proof. reflexivity. Qed.

Lemma send_command_object d :
  send_command py_str (JObject d)
  = if is_error_status (dict_get d "status")
    then Raised (RuntimeError
                   ("Blender error: "
                    +:+ py_str (default (JString "unknown") (dict_get d "error"))))
    else Returned (default (JObject d) (dict_get d "data")).
Proof. reflexivity. Qed.

(** C7, amended: for a reply that parses to an object, [send_command]
    raises exactly when its ["status"] is ["error"]; the error is a
    [RuntimeError] whose message ends with the reply's ["error"] string
    (with ["unknown"] when there is none); any other object reply returns
    its ["data"] field, or the whole reply when it has none. *)
Theorem send_command_object_reply (d : list (string * json)) :
  (raises (send_command py_str (JObject d)) <-> error_reply (JObject d)) /\
  (error_reply (JObject d) ->
     exists msg, send_command py_str (JObject d) = Raised (RuntimeError msg) /\
       (forall e, dict_get d "error" = Some (JString e) -> contains msg e) /\
       (dict_get d "error" = None -> contains msg "unknown")) /\
  (~ error_reply (JObject d) ->
     send_command py_str (JObject d)
     = Returned (match dict_get d "data" with
                 | Some data => data
                 | None => JObject d
                 end)).
Proof.
  assert (Herr : error_reply (JObject d) <-> is_error_status (dict_get d "status") = true).
  { rewrite is_error_status_true. unfold error_reply. split.
    - by intros (d' & [= <-] & H).
    - intros H. by exists d. }
  rewrite send_command_object.
  destruct (is_error_status (dict_get d "status")) eqn:Hst.
  - split; [|split].
    + rewrite Herr. split; [done|]. intros _. by eexists.
    + intros _. eexists. split; [reflexivity|]. split.
      * intros e ->. cbn [from_option]. unfold Datatypes.id. rewrite py_str_string. apply contains_suffix.
      * intros ->. cbn [from_option]. unfold Datatypes.id. rewrite py_str_string. apply contains_suffix.
    + rewrite Herr. done.
  - split; [|split].
    + rewrite Herr. split; [intros [e [=]]|done].
    + rewrite Herr. done.
    + intros _. by destruct (dict_get d "data").
Qed.

End ReplyFacts.

(** C7 as stated fails: a reply that parses to an array has no ["status"]
    field, and [send_command] raises on it. *)
Lemma send_command_array_reply_raises :
  raises (send_command simple_str (JArray [])) /\ ~ error_reply (JArray []).
Proof.
  split.
  - by eexists.
  - by intros (d & [=] & _).
Qed.

Lemma send_command_object_reply_witness :
  (forall s, simple_str (JString s) = s) /\
  (raises (send_command simple_str
             (JObject [("status", JString "error"); ("error", JString "no such tool")]))
   <-> error_reply
         (JObject [("status", JString "error"); ("error", JString "no such tool")])).
Proof.
  split; [reflexivity|].
  apply (send_command_object_reply simple_str (fun s => eq_refl)
           [("status", JString "error"); ("error", JString "no such tool")]).
Defined.

Example send_command_error_message :
  send_command simple_str
    (JObject [("status", JString "error"); ("error", JString "no such tool")])
  = Raised (RuntimeError "Blender error: no such tool").
Proof. reflexivity. Qed.

Example send_command_data :
  send_command simple_str
    (JObject [("status", JString "ok"); ("data", JObject [("objects", JInt 3)])])
  = Returned (JObject [("objects", JInt 3)]).
Proof. reflexivity. Qed.

Example send_command_error_without_status :
  send_command simple_str (JObject [("error", JString "bad request")])
  = Returned (JObject [("error", JString "bad request")]).
Proof. reflexivity. Qed.

End RelayFacts.

Module SceneFacts.
Import Py Scene.

Lemma numbered_name_free taken name :
  name ∉ taken -> numbered_name taken name = name.
Proof. intros H. unfold numbered_name. by rewrite decide_False. Qed.

Section HostFacts.
Variable unique_name : gset string -> string -> string.
(** A free name is given as it is requested. *)
Hypothesis unique_name_free :
  forall taken name, name ∉ taken -> unique_name taken name = name.

(** *** Materials and collections *)

Lemma get_or_create_material_existing name color metal rough s m :
  materials s !! name = Some m ->
  Utils.get_or_create_material unique_name name color metal rough s = (s, name).
Proof. intros H. unfold Utils.get_or_create_material. by rewrite H. Qed.

Lemma materials_new_fresh name s :
  materials s !! name = None ->
  materials_new unique_name name s
  = (with_materials s (<[name := mkMaterial false None]> (materials s)), name).
Proof.
  intros H. unfold materials_new.
  by rewrite unique_name_free by (by apply not_elem_of_dom).
Qed.




(** The placeholder of [get_material]: a node material with the host's
    gray Principled BSDF. *)
Lemma get_material_placeholder name s :
  materials s !! name = None ->
  materials (Hole5.get_material unique_name name s).1 !! name
  = Some (mkMaterial true (Some default_bsdf)).
Proof.
  intros Hm. unfold Hole5.get_material. rewrite Hm, materials_new_fresh by done.
  cbn. by rewrite lookup_alter_eq, lookup_insert_eq.
Qed.




(** C10: when a material of the requested name exists,
    [get_or_create_material] returns it and leaves the scene, the material
    included, as it was, whatever colour, metallic and roughness are
    passed. *)
Theorem get_or_create_material_keeps_existing name color metal rough s m :
  materials s !! name = Some m ->
  Utils.get_or_create_material unique_name name color metal rough s = (s, name) /\
  materials (Utils.get_or_create_material unique_name name color metal rough s).1 !! name
  = Some m.
Proof.
  intros H. rewrite (get_or_create_material_existing _ _ _ _ _ _ H). by split.
Qed.

(** *** Objects: the create step of hole_builder_utils.py *)

Lemma remove_existing_objects name s :
  objects (Utils.remove_existing name s) = delete name (objects s).
Proof.
  unfold Utils.remove_existing. destruct (objects s !! name) as [obj|] eqn:Hobj.
  - destruct (ob_data obj); [|done]. by case_decide.
  - symmetry. by apply delete_id.
Qed.

Lemma ensure_collection_objects name parent s :
  objects (Utils.ensure_collection unique_name name parent s).1 = objects s.
Proof.
  unfold Utils.ensure_collection, collections_new.
  destruct (collections s !! name); [done|]. cbn [with_collections collections].
  destruct (truthy parent); [|done]. by destruct (_ !! _).
Qed.

Lemma link_to_collection_objects obj col s :
  objects (Utils.link_to_collection unique_name obj col s) = objects s.
Proof.
  unfold Utils.link_to_collection.
  destruct (collections s !! col) as [c|] eqn:Hc.
  - cbn. repeat (case_match || case_decide); done.
  - pose proof (ensure_collection_objects col None s) as He.
    destruct (Utils.ensure_collection unique_name col None s) as [s1 col1].
    cbn in He. cbn [with_collections objects]. rewrite <- He.
    repeat (case_match || case_decide); done.
Qed.

Lemma materials_append_objects obj mat s :
  objects (materials_append obj mat s) = objects s.
Proof. unfold materials_append. repeat case_match; done. Qed.

(** The objects after a create step: the old object of that name is gone
    and a new one stands under the same name. *)
Lemma create_mesh_object_objects name col mat s :
  exists o, objects (Utils.create_mesh_object unique_name name col mat s).1
            = <[name := o]> (objects s)
            /\ (Utils.create_mesh_object unique_name name col mat s).2 = name.
Proof.
  unfold Utils.create_mesh_object, meshes_new, objects_new.
  cbn [with_meshes with_objects objects].
  rewrite remove_existing_objects.
  rewrite (unique_name_free (dom (delete name (objects s))) name)
    by (rewrite dom_delete_L; set_solver).
  eexists. repeat case_match; cbn [fst snd];
    rewrite ?materials_append_objects, link_to_collection_objects;
    cbn [objects]; by rewrite insert_delete_eq.
Qed.

Lemma create_mesh_object_names name col mat s :
  object_names (Utils.create_mesh_object unique_name name col mat s).1
  = {[name]} ∪ object_names s.
Proof.
  destruct (create_mesh_object_objects name col mat s) as (o & Ho & _).
  unfold object_names. by rewrite Ho, dom_insert_L.
Qed.

Lemma run_creates_names steps : forall s,
  object_names (Utils.run_creates unique_name steps s)
  = list_to_set (fmap (fun step => step.1.1) steps) ∪ object_names s.
Proof.
  unfold Utils.run_creates.
  induction steps as [|step steps IH]; intros s; cbn [foldl fmap list_fmap].
  - set_solver.
  - rewrite IH, create_mesh_object_names. cbn [list_to_set]. set_solver.
Qed.

(** *** Objects: the create step of build_hole_5.py *)

Lemma remove_if_exists_objects name s :
  objects (Hole5.remove_if_exists name s) = delete name (objects s).
Proof.
  unfold Hole5.remove_if_exists. destruct (objects s !! name) eqn:Hobj; [done|].
  symmetry. by apply delete_id.
Qed.

Lemma remove_if_exists_collections name s :
  dom (collections (Hole5.remove_if_exists name s)) = dom (collections s).
Proof.
  unfold Hole5.remove_if_exists. destruct (objects s !! name); [|done].
  cbn. by rewrite dom_fmap_L.
Qed.

Lemma assign_material_frame obj mat s :
  objects (Hole5.assign_material unique_name obj mat s) = objects s /\
  collections (Hole5.assign_material unique_name obj mat s) = collections s.
Proof.
  unfold Hole5.assign_material, Hole5.get_material, materials_new.
  destruct (materials s !! mat); cbn; repeat case_match; done.
Qed.

(** Linking raises exactly when the collection is missing; it changes
    neither the objects nor the names of the collections. *)
Lemma link_to_collection_strict obj col s :
  objects (Hole5.link_to_collection obj col s).1 = objects s /\
  dom (collections (Hole5.link_to_collection obj col s).1) = dom (collections s) /\
  (col ∈ dom (collections s) -> (Hole5.link_to_collection obj col s).2 = Returned ()) /\
  (col ∉ dom (collections s) -> exists e, (Hole5.link_to_collection obj col s).2 = Raised e).
Proof.
  unfold Hole5.link_to_collection, Hole5.get_collection.
  destruct (collections s !! col) as [c|] eqn:Hc.
  - rewrite Hc. assert (Hin : col ∈ dom (collections s)) by (apply elem_of_dom; eauto).
    repeat case_decide; cbn; rewrite ?dom_alter_L;
      repeat split; first [done | intros Hn; by destruct Hn].
  - assert (Hnin : col ∉ dom (collections s)) by by apply not_elem_of_dom.
    cbn. split; [done|]. split; [done|]. split; [done|]. eauto.
Qed.

(** One create step of hole 5: the object stands under its name afterwards,
    also when linking raises, and the step raises exactly when the
    collection is missing. *)
Lemma build_object_step name mat col s :
  let r := Hole5.build_object unique_name name mat col s in
  object_names r.1 = {[name]} ∪ object_names s /\
  dom (collections r.1) = dom (collections s) /\
  (col ∈ dom (collections s) -> r.2 = Returned name) /\
  (col ∉ dom (collections s) -> exists e, r.2 = Raised e).
Proof.
  unfold Hole5.build_object, Hole5.create_object_from_bmesh, meshes_new, objects_new.
  cbn [with_meshes with_objects objects].
  rewrite remove_if_exists_objects.
  rewrite (unique_name_free (dom (delete name (objects s))) name)
    by (rewrite dom_delete_L; set_solver).
  match goal with
  | |- context [Hole5.link_to_collection name col ?s1] =>
      pose proof (link_to_collection_strict name col s1) as (Ho & Hc & Hret & Hraise);
      destruct (assign_material_frame name mat
                  (with_objects
                     (with_meshes (Hole5.remove_if_exists name s)
                        (<[unique_name (dom (meshes (Hole5.remove_if_exists name s))) name
                           := mkMesh []]> (meshes (Hole5.remove_if_exists name s))))
                     (<[name := mkObject
                                  (MeshOf (unique_name
                                             (dom (meshes (Hole5.remove_if_exists name s)))
                                             name))]>
                        (delete name (objects s)))))
        as [Hao Hac];
      rewrite Hao in Ho; rewrite Hac in Hc, Hret, Hraise;
      cbn [with_meshes with_objects objects collections] in Ho, Hc, Hret, Hraise;
      rewrite remove_if_exists_collections in Hc, Hret, Hraise;
      destruct (Hole5.link_to_collection name col s1) as [s2 [u|e]] eqn:Hlink
  end; cbn [fst snd] in *; unfold object_names;
    rewrite Ho, insert_delete_eq, dom_insert_L;
    (split; [done|]); (split; [done|]); split; intros Hin.
  - done.
  - destruct (Hraise Hin) as [e He]. discriminate He.
  - specialize (Hret Hin). discriminate Hret.
  - by eexists.
Qed.

Lemma run_builds_names steps : forall s,
  object_names (Hole5.run_builds unique_name steps s).1
  = Hole5.attempted (dom (collections s)) steps ∪ object_names s /\
  dom (collections (Hole5.run_builds unique_name steps s).1) = dom (collections s).
Proof.
  induction steps as [|[[name mat] col] steps IH]; intros s; cbn [Hole5.run_builds Hole5.attempted fst snd].
  - split; [set_solver|done].
  - pose proof (build_object_step name mat col s) as (Hn & Hc & Hret & Hraise).
    cbn zeta in Hn, Hc, Hret, Hraise.
    destruct (Hole5.build_object unique_name name mat col s) as [s1 [o|e]] eqn:Hb;
      cbn [fst snd] in *.
    + destruct (decide (col ∈ dom (collections s))) as [Hin|Hnin].
      * destruct (IH s1) as [IHn IHc]. rewrite IHn, IHc, Hc, Hn. split; [set_solver|done].
      * destruct (Hraise Hnin) as [e He]. discriminate He.
    + destruct (decide (col ∈ dom (collections s))) as [Hin|Hnin].
      * specialize (Hret Hin). discriminate Hret.
      * rewrite Hn. split; [set_solver|done].
Qed.

Lemma object_count_names s : object_count s = size (object_names s).
Proof. unfold object_count, object_names. by rewrite size_dom. Qed.

(** C4: running the create steps of a script a second time leaves the set
    of object names and the object count as the first run left them, for
    the steps of [create_mesh_object] and for the
    [remove_if_exists]-then-create steps of hole 5. *)
Theorem create_steps_idempotent_on_names
    (steps : list (string * string * option string))
    (builds : list (string * string * string)) (s : Scene) :
  (let once := Utils.run_creates unique_name steps s in
   let twice := Utils.run_creates unique_name steps once in
   object_names twice = object_names once /\ object_count twice = object_count once) /\
  (let once := (Hole5.run_builds unique_name builds s).1 in
   let twice := (Hole5.run_builds unique_name builds once).1 in
   object_names twice = object_names once /\ object_count twice = object_count once).
Proof.
  cbn zeta.
  assert (H1 : object_names (Utils.run_creates unique_name steps
                               (Utils.run_creates unique_name steps s))
               = object_names (Utils.run_creates unique_name steps s))
    by (rewrite !run_creates_names; set_solver).
  assert (H2 : object_names (Hole5.run_builds unique_name builds
                               (Hole5.run_builds unique_name builds s).1).1
               = object_names (Hole5.run_builds unique_name builds s).1).
  { destruct (run_builds_names builds s) as [Hn Hc].
    destruct (run_builds_names builds (Hole5.run_builds unique_name builds s).1) as [Hn' _].
    rewrite Hn', Hc, Hn. set_solver. }
  rewrite !object_count_names, H1, H2. done.
Qed.

End HostFacts.

(** *** The helpers on concrete scenes *)


Example create_mesh_object_twice :
  object_names
    (Utils.run_creates numbered_name [("H2_Fairway", "Hole2", Some "ArtificialTurf")]
       (Utils.run_creates numbered_name [("H2_Fairway", "Hole2", Some "ArtificialTurf")]
          empty_scene))
  = {["H2_Fairway"]}.
Proof. vm_compute. reflexivity. Qed.

(** [remove_existing] takes the orphaned mesh along; [remove_if_exists]
    leaves it, and the next mesh of that name gets a suffix. *)
Example create_mesh_object_twice_meshes :
  dom (meshes
         (Utils.run_creates numbered_name [("H2_Fairway", "Hole2", Some "ArtificialTurf")]
            (Utils.run_creates numbered_name [("H2_Fairway", "Hole2", Some "ArtificialTurf")]
               empty_scene)))
  = {["H2_Fairway_mesh"]}.
Proof. vm_compute. reflexivity. Qed.

Example build_object_twice_meshes :
  dom (meshes
         (Hole5.run_builds numbered_name [("H5_Tee", "ArtificialTurf", "H5_Fairway")]
            (Hole5.run_builds numbered_name [("H5_Tee", "ArtificialTurf", "H5_Fairway")]
               empty_scene).1).1)
  = {["H5_Tee"; "H5_Tee.001"]}.
Proof. vm_compute. reflexivity. Qed.

Example build_object_missing_collection :
  (Hole5.run_builds numbered_name [("H5_Tee", "ArtificialTurf", "H5_Fairway")]
     empty_scene).2
  = Raised (RuntimeError
              "Collection 'H5_Fairway' not found. Create it before running this script.").
Proof. vm_compute. reflexivity. Qed.


Lemma get_or_create_material_keeps_existing_witness :
  materials scene_with_water !! "Water" = Some water /\
  Utils.get_or_create_material numbered_name "Water" (Some (0.1, 0.3, 0.5, 0.8)%R) 0%R 0.1%R
    scene_with_water
  = (scene_with_water, "Water").
Proof.
  split; [apply lookup_singleton_eq|].
  apply (get_or_create_material_keeps_existing numbered_name "Water"
           (Some (0.1, 0.3, 0.5, 0.8)%R) 0%R 0.1%R scene_with_water water).
  apply lookup_singleton_eq.
Defined.

Lemma create_steps_idempotent_on_names_witness :
  (forall taken name, name ∉ taken -> numbered_name taken name = name) /\
  object_names
    (Utils.run_creates numbered_name [("H2_Fairway", "Hole2", Some "ArtificialTurf")]
       (Utils.run_creates numbered_name [("H2_Fairway", "Hole2", Some "ArtificialTurf")]
          empty_scene))
  = object_names
      (Utils.run_creates numbered_name [("H2_Fairway", "Hole2", Some "ArtificialTurf")]
         empty_scene).
Proof.
  split; [exact numbered_name_free|].
  apply (create_steps_idempotent_on_names numbered_name numbered_name_free
           [("H2_Fairway", "Hole2", Some "ArtificialTurf")]
           [("H5_Tee", "ArtificialTurf", "H5_Fairway")] empty_scene).
Defined.

End SceneFacts.
